(** * Learning_Typescript: the to-do form handler and the input component

    A shallow embedding of the two executable fragments of the repository:
    - [Todo TS/src/main.ts]: the submit handler that pushes a record into
      the [todos] array and logs the array;
    - the React component [InputFeild] (the [.tsx] fragment).

    JavaScript numbers are IEEE 754 binary64 values; they are modelled with
    the specification floats of the standard library ([spec_float] with
    [prec = 53] and [emax = 1024]), so that [Math.random() * 1000] is the
    correctly rounded product and not an idealised real number. *)

From Stdlib Require Import ZArith List Ascii String Bool Lia.
From Stdlib Require Import Floats.SpecFloat.
From Stdlib Require Import Decimal DecimalString.
Import ListNotations.

Set Warnings "-register-all".

Local Open Scope string_scope.
Local Open Scope Z_scope.

(** ** JavaScript numbers *)

Module JSNumber.

Definition prec : Z := 53.
Definition emax : Z := 1024.

(** The Number type: a binary64 value. *)
Definition number : Type := spec_float.

Definition well_formed (x : number) : bool := valid_binary prec emax x.

(** Integer literals such as [1000]. *)
Definition of_Z (z : Z) : number := binary_normalize prec emax z 0 false.

(** The [*] operator on numbers. *)
Definition times (x y : number) : number := SFmul prec emax x y.

(** The relational operators [<] and [<=] on numbers. *)
Definition lt (x y : number) : bool := SFltb x y.
Definition le (x y : number) : bool := SFleb x y.

(** What [Math.random()] may return: a number "with positive sign,
    greater than or equal to 0 but strictly less than 1". *)
Definition positive_sign (x : number) : bool :=
  match x with
  | S754_zero s | S754_finite s _ _ => negb s
  | _ => false
  end.

Definition is_unit (x : number) : bool :=
  well_formed x && positive_sign x && lt x (of_Z 1).

(** [0 <= x && x < 1000] *)
Definition in_0_1000 (x : number) : bool :=
  le (of_Z 0) x && lt x (of_Z 1000).

(** *** Number::toString, radix 10 *)

(** Decimal digits of a non-negative integer. *)
Definition digits (z : Z) : string := NilZero.string_of_uint (N.to_uint (Z.to_N z)).

Fixpoint zeros (n : nat) : string :=
  match n with
  | O => ""
  | S n' => String "0" (zeros n')
  end.

(** [a * 2^b * 10^c], compared exactly by clearing negative exponents. *)
Record scaled := { sc_num : Z; sc_two : Z; sc_ten : Z }.

Definition lift (p q : scaled) : Z :=
  sc_num p * 2 ^ (sc_two p - Z.min (sc_two p) (sc_two q))
           * 10 ^ (sc_ten p - Z.min (sc_ten p) (sc_ten q)).

Definition sc_compare (p q : scaled) : comparison :=
  Z.compare (lift p q) (lift q p).

Definition sc_ltb (p q : scaled) : bool :=
  match sc_compare p q with Lt => true | _ => false end.

Definition sc_leb (p q : scaled) : bool :=
  match sc_compare p q with Gt => false | _ => true end.

(** The decimal [s * 10^c]. *)
Definition dec (s c : Z) : scaled := {| sc_num := s; sc_two := 0; sc_ten := c |}.

Definition emin : Z := 3 - emax - prec.

Section Shortest.
(** The positive finite number [m * 2^e]. *)
Variables (m : positive) (e : Z).

(** Four times the value, and four times the two midpoints that bound
    the reals rounding to it. *)
Definition exact : scaled :=
  {| sc_num := 4 * Z.pos m; sc_two := e - 2; sc_ten := 0 |}.

Definition below : scaled :=
  let gap := if (Z.pos m =? 2 ^ (prec - 1)) && (emin <? e) then 1 else 2 in
  {| sc_num := 4 * Z.pos m - gap; sc_two := e - 2; sc_ten := 0 |}.

Definition above : scaled :=
  {| sc_num := 4 * Z.pos m + 2; sc_two := e - 2; sc_ten := 0 |}.

(** Does the real [v] round (to nearest, ties to even) to [m * 2^e]? *)
Definition rounds_here (v : scaled) : bool :=
  if Z.even (Z.pos m)
  then sc_leb below v && sc_leb v above
  else sc_ltb below v && sc_ltb v above.

(** The least [n] with [m * 2^e < 10^n], searched upwards from [n]. *)
Fixpoint magnitude (fuel : nat) (n : Z) : Z :=
  match fuel with
  | O => n
  | S fuel' => if sc_ltb exact (dec 1 n) then n else magnitude fuel' (n + 1)
  end.

Definition n0 : Z := magnitude 640 (-324).

(** Integer part of [m * 2^e / 10^c]. *)
Definition quotient (c : Z) : Z :=
  (Z.pos m * 2 ^ Z.max e 0 * 10 ^ Z.max (- c) 0)
    / (2 ^ Z.max (- e) 0 * 10 ^ Z.max c 0).

(** Twice the distance from [s * 10^c] to the value, in units of
    [10^c / (2^max(-e,0) * 10^max(c,0))]. *)
Definition distance (s c : Z) : Z :=
  Z.abs (s * (2 ^ Z.max (- e) 0 * 10 ^ Z.max c 0)
         - Z.pos m * 2 ^ Z.max e 0 * 10 ^ Z.max (- c) 0).

(** Step 5 of Number::toString: integers [n], [k], [s] with
    [10^(k-1) <= s < 10^k], [s * 10^(n-k)] rounding to the number, and
    [k] as small as possible; of two such [s] the closer one. *)
Fixpoint shortest (fuel : nat) (k : Z) : Z * Z * Z :=
  let c := n0 - k in
  let lo := quotient c in
  let hi := lo + 1 in
  let pick_lo := (n0, k, lo) in
  let pick_hi := if hi =? 10 ^ k then (n0 + 1, k, 10 ^ (k - 1)) else (n0, k, hi) in
  match fuel with
  | O => pick_lo
  | S fuel' =>
      match rounds_here (dec lo c), rounds_here (dec hi c) with
      | true, true => if distance lo c <=? distance hi c then pick_lo else pick_hi
      | true, false => pick_lo
      | false, true => pick_hi
      | false, false => shortest fuel' (k + 1)
      end
  end.

Definition nks : Z * Z * Z := shortest 17 1.
End Shortest.

Definition exponent_part (e : Z) : string :=
  "e" ++ (if e <? 0 then "-" else "+") ++ digits (Z.abs e).

(** Steps 6 to 9: the layout of the digits. *)
Definition layout (n k s : Z) : string :=
  let ds := digits s in
  if (-5 <=? n) && (n <=? 21) then
    if k <=? n then ds ++ zeros (Z.to_nat (n - k))
    else if 0 <? n then
      substring 0 (Z.to_nat n) ds ++ "." ++ substring (Z.to_nat n) (Z.to_nat (k - n)) ds
    else "0." ++ zeros (Z.to_nat (- n)) ++ ds
  else
    if k =? 1 then ds ++ exponent_part (n - 1)
    else substring 0 1 ds ++ "." ++ substring 1 (Z.to_nat (k - 1)) ds
           ++ exponent_part (n - 1).

Definition toString_pos (m : positive) (e : Z) : string :=
  let '(n, k, s) := nks m e in layout n k s.

(** [String(x)] for a number [x]. *)
Definition toString (x : number) : string :=
  match x with
  | S754_nan => "NaN"
  | S754_zero _ => "0"
  | S754_infinity false => "Infinity"
  | S754_infinity true => "-Infinity"
  | S754_finite false m e => toString_pos m e
  | S754_finite true m e => "-" ++ toString_pos m e
  end.

End JSNumber.

(** ** The to-do form handler ([Todo TS/src/main.ts]) *)

Module TodoApp.
Import JSNumber.
Local Open Scope nat_scope.
Local Open Scope list_scope.

(** [interface Todo { title:string, isCompleted:boolean, readonly id:string }] *)
Record Todo := { title : string; isCompleted : bool; id : string }.

(** Values an element of [todos] can be at run time. The array is
    annotated [Array<string>], the handler pushes a [Todo] object; the
    annotation is erased before the program runs. *)
Inductive value :=
| VString (s : string)
| VTodo (t : Todo).

(** A result of [Math.random()]. *)
Definition unit_number : Type := { x : number | is_unit x = true }.

(** The submit event: [preventDefault] sets its [defaultPrevented] flag. *)
Record SubmitEvent := { defaultPrevented : bool }.

Inductive Error :=
| TypeError (msg : string).

Inductive LogEntry :=
| Logged (vs : list value)
| Uncaught (err : Error).

(** What the handler does to the outside, in the order it does it. *)
Inductive Effect :=
| PreventDefault
| GetValue (v : string)
| MathRandom (r : number)
| ArrayPush (v : value)
| ConsoleLog (vs : list value).

(** Everything the handler can reach. [todoInput] is the element bound
    by [document.getElementsByName("title")[0]] with its current text,
    [None] when the document has no such element (the binding is then
    [undefined]). [random_source] and [random_calls] are the generator
    behind [Math.random]. *)
Record State := {
  todos : list value;
  todoInput : option string;
  event : SubmitEvent;
  console : list LogEntry;
  random_source : nat -> unit_number;
  random_calls : nat;
  trace : list Effect
}.

Definition set_todos (f : list value -> list value) (s : State) : State :=
  {| todos := f (todos s); todoInput := todoInput s; event := event s;
     console := console s; random_source := random_source s;
     random_calls := random_calls s; trace := trace s |}.

Definition set_todoInput (v : option string) (s : State) : State :=
  {| todos := todos s; todoInput := v; event := event s;
     console := console s; random_source := random_source s;
     random_calls := random_calls s; trace := trace s |}.

Definition set_event (e : SubmitEvent) (s : State) : State :=
  {| todos := todos s; todoInput := todoInput s; event := e;
     console := console s; random_source := random_source s;
     random_calls := random_calls s; trace := trace s |}.

Definition add_console (l : LogEntry) (s : State) : State :=
  {| todos := todos s; todoInput := todoInput s; event := event s;
     console := console s ++ [l]; random_source := random_source s;
     random_calls := random_calls s; trace := trace s |}.

Definition next_random (s : State) : State :=
  {| todos := todos s; todoInput := todoInput s; event := event s;
     console := console s; random_source := random_source s;
     random_calls := S (random_calls s); trace := trace s |}.

Definition record_effect (x : Effect) (s : State) : State :=
  {| todos := todos s; todoInput := todoInput s; event := event s;
     console := console s; random_source := random_source s;
     random_calls := random_calls s; trace := trace s ++ [x] |}.

(** *** Statements that may throw, over the state *)

Inductive Completion (A : Type) :=
| Normal (a : A)
| Throw (err : Error).
Arguments Normal {A} a.
Arguments Throw {A} err.

Definition M (A : Type) : Type := State -> Completion A * State.

Definition ret {A} (a : A) : M A := fun s => (Normal a, s).

Definition bind {A B} (c : M A) (k : A -> M B) : M B :=
  fun s =>
    match c s with
    | (Normal a, s') => k a s'
    | (Throw err, s') => (Throw err, s')
    end.

Notation "x <- c ;; k" := (bind c (fun x => k))
  (at level 61, c at next level, right associativity).
Notation "c ;; k" := (bind c (fun _ => k))
  (at level 61, right associativity).

(** [e.preventDefault()] *)
Definition preventDefault : M unit :=
  fun s => (Normal tt,
            record_effect PreventDefault (set_event {| defaultPrevented := true |} s)).

(** [todoInput.value]: a property read, a [TypeError] on [undefined]. *)
Definition todoInput_value : M string :=
  fun s =>
    match todoInput s with
    | Some v => (Normal v, record_effect (GetValue v) s)
    | None =>
        (Throw (TypeError "Cannot read properties of undefined (reading 'value')"), s)
    end.

(** [Math.random()] *)
Definition Math_random : M number :=
  fun s =>
    let r := proj1_sig (random_source s (random_calls s)) in
    (Normal r, record_effect (MathRandom r) (next_random s)).

(** [todos.push(v)], which returns the new length. *)
Definition todos_push (v : value) : M nat :=
  fun s =>
    let s' := record_effect (ArrayPush v) (set_todos (fun l => l ++ [v]) s) in
    (Normal (List.length (todos s')), s').

(** [console.log(todos)] *)
Definition console_log_todos : M unit :=
  fun s => (Normal tt, record_effect (ConsoleLog (todos s)) (add_console (Logged (todos s)) s)).

(** [myForm.onsubmit = (e:SubmitEvent) => { ... }] *)
Definition onsubmit : M unit :=
  preventDefault ;;
  v <- todoInput_value ;;
  r <- Math_random ;;
  let todo := {| title := v;
                 isCompleted := false;
                 id := toString (times r (of_Z 1000%Z)) |} in
  todos_push (VTodo todo) ;;
  console_log_todos.

(** *** The page around the handler *)

(** The browser fires a fresh submit event at the form; an exception
    that leaves the handler is reported on the console. *)
Definition dispatch_submit (s : State) : State :=
  match onsubmit (set_event {| defaultPrevented := false |} s) with
  | (Normal _, s') => s'
  | (Throw err, s') => add_console (Uncaught err) s'
  end.

Inductive Action :=
| TypeText (t : string)
| Submit.

Definition step (s : State) (a : Action) : State :=
  match a with
  | TypeText t =>
      match todoInput s with
      | Some _ => set_todoInput (Some t) s
      | None => s
      end
  | Submit => dispatch_submit s
  end.

Definition run (acts : list Action) (s : State) : State := fold_left step acts s.

(** The state once the module has been evaluated: [const todos = []]. *)
Definition initial (field : option string) (rnd : nat -> unit_number) : State :=
  {| todos := []; todoInput := field; event := {| defaultPrevented := false |};
     console := []; random_source := rnd; random_calls := 0; trace := [] |}.

Definition submissions (acts : list Action) : nat :=
  List.length (filter (fun a => match a with Submit => true | _ => false end) acts).

(** The record the handler builds from the text [t] and the draw [r]. *)
Definition new_todo (t : string) (r : number) : Todo :=
  {| title := t; isCompleted := false; id := toString (times r (of_Z 1000%Z)) |}.

Definition draw (s : State) : number := proj1_sig (random_source s (random_calls s)).

(** An element as the handler makes it: an object with the three
    fields, not completed, whose [id] spells a number at least 0 and
    below 1000. *)
Definition fresh_entry (v : value) : Prop :=
  exists (t : Todo) (x : number),
    v = VTodo t /\ isCompleted t = false /\
    in_0_1000 x = true /\ id t = toString x.

(** *** Sample pages *)

(** The draw [0.5], and a generator that always returns it. *)
Definition one_half : unit_number :=
  exist _ (S754_finite false 4503599627370496 (-53)) eq_refl.

Definition always_half : nat -> unit_number := fun _ => one_half.

Definition sample_page : State := initial (Some "buy milk") always_half.

Definition blank_page : State := initial (Some "") always_half.

(** The sample page after one submission. *)
Definition page_after_one : State := dispatch_submit sample_page.

End TodoApp.

(** ** The input component (the [.tsx] fragment) *)

Module InputField.
Local Open Scope list_scope.

(** The event a handler receives: its type and the path, from the root
    of the rendered tree, of the element it was fired at. *)
Record FormEvent := { ev_type : string; ev_target : list nat }.

(** [React.SetStateAction<string>] *)
Inductive SetStateAction :=
| SetValue (v : string)
| SetWith (f : string -> string).

Section Component.
(** The state of the parent, which the callbacks act on, and the hook
    cells React keeps for a component instance. *)
Variables App Hooks : Type.

Definition Handler : Type := FormEvent -> App -> App.

(** [interface Props { todo; setTodo; handleAdd }] *)
Record Props := {
  todo : string;
  setTodo : SetStateAction -> App -> App;
  handleAdd : Handler
}.

Inductive PropValue :=
| PStr (s : string)
| PHandler (h : Handler).

(** A rendered element: tag, props in source order, children. *)
Inductive Element :=
| Elem (tag : string) (props : list (string * PropValue)) (children : list Element)
| Text (s : string).

(** [React.FC<P>]: called by React with the props, the hook cells of
    the instance at hand. *)
Definition FC (P : Type) : Type := P -> Hooks -> Element * Hooks.

(** [const InputFeild: React.FC<Props> = ({ todo, setTodo, handleAdd }) => ...] *)
Definition InputFeild : FC Props :=
  fun '{| todo := todo; setTodo := setTodo; handleAdd := handleAdd |} hooks =>
    (Elem "form" [("className", PStr "input")]
       [ Elem "input"
           [("type", PStr "input");
            ("placeholder", PStr "Enter a Task");
            ("className", PStr "input__box");
            ("onSubmit", PHandler handleAdd)]
           [];
         Elem "button"
           [("className", PStr "input_submit");
            ("type", PStr "submit")]
           [Text "Go"] ],
     hooks).

(** *** Reading a rendered tree *)

Fixpoint lookup (name : string) (props : list (string * PropValue)) : option PropValue :=
  match props with
  | [] => None
  | (k, v) :: rest => if String.eqb k name then Some v else lookup name rest
  end.

Definition attr (name : string) (el : Element) : option string :=
  match el with
  | Elem _ props _ =>
      match lookup name props with
      | Some (PStr v) => Some v
      | _ => None
      end
  | Text _ => None
  end.

Definition handler_of (name : string) (el : Element) : option Handler :=
  match el with
  | Elem _ props _ =>
      match lookup name props with
      | Some (PHandler h) => Some h
      | _ => None
      end
  | Text _ => None
  end.

Definition tag_of (el : Element) : option string :=
  match el with
  | Elem tag _ _ => Some tag
  | Text _ => None
  end.

Definition children_of (el : Element) : list Element :=
  match el with
  | Elem _ _ children => children
  | Text _ => []
  end.

(** The valid [type] keywords of [<input>] other than [text]; a missing
    or invalid keyword selects the text state. *)
Definition non_text_input_types : list string :=
  ["hidden"; "search"; "tel"; "url"; "email"; "password"; "date"; "month";
   "week"; "time"; "datetime-local"; "number"; "range"; "color"; "checkbox";
   "radio"; "file"; "submit"; "image"; "reset"; "button"].

Definition mem (x : string) (l : list string) : bool := existsb (String.eqb x) l.

Definition is_text_field (el : Element) : bool :=
  match tag_of el with
  | Some "input" =>
      match attr "type" el with
      | Some t => negb (mem t non_text_input_types)
      | None => true
      end
  | _ => false
  end.

(** A [<button>] submits unless its [type] is [reset] or [button]. *)
Definition is_submit_button (el : Element) : bool :=
  match tag_of el with
  | Some "button" =>
      match attr "type" el with
      | Some t => negb (mem t ["reset"; "button"])
      | None => true
      end
  | Some "input" =>
      match attr "type" el with
      | Some t => mem t ["submit"; "image"]
      | None => false
      end
  | _ => false
  end.

(** The text an input box shows when it is mounted. *)
Definition displayed_text (el : Element) : string :=
  match attr "value" el with
  | Some v => v
  | None =>
      match attr "defaultValue" el with
      | Some v => v
      | None => ""
      end
  end.

(** *** Events *)

(** The elements from the root down to the one at [path]. *)
Fixpoint branch (path : list nat) (el : Element) : list Element :=
  match path with
  | [] => [el]
  | i :: rest =>
      match nth_error (children_of el) i with
      | Some c => el :: branch rest c
      | None => []
      end
  end.

(** An event fired at [ev_target] runs the handlers registered under
    [name] from the target up to the root. *)
Definition fire (name : string) (tree : Element) (ev : FormEvent) (app : App) : App :=
  fold_left
    (fun a el => match handler_of name el with Some h => h ev a | None => a end)
    (List.rev (branch (ev_target ev) tree))
    app.

(** Submitting a form: the browser fires [submit] at the form element
    itself, here the root of the tree. *)
Definition submit_event : FormEvent := {| ev_type := "submit"; ev_target := [] |}.

Definition submit_form (tree : Element) (app : App) : App :=
  match tag_of tree with
  | Some "form" => fire "onSubmit" tree submit_event app
  | _ => app
  end.

End Component.

Arguments todo {App} _.
Arguments setTodo {App} _.
Arguments handleAdd {App} _.
Arguments Build_Props {App} _ _ _.
Arguments Elem {App} _ _ _.
Arguments Text {App} _.
Arguments PStr {App} _.
Arguments PHandler {App} _.
Arguments InputFeild {App Hooks} _ _.
Arguments attr {App} _ _.
Arguments handler_of {App} _ _.
Arguments tag_of {App} _.
Arguments children_of {App} _.
Arguments is_text_field {App} _.
Arguments is_submit_button {App} _.
Arguments displayed_text {App} _.
Arguments branch {App} _ _.
Arguments fire {App} _ _ _ _.
Arguments submit_form {App} _ _.

(** *** Sample props: the parent counts the calls of its callbacks *)

Definition counting (text : string) : Props nat :=
  {| todo := text; setTodo := fun _ n => n; handleAdd := fun _ n => S n |}.

Definition counting_other : Props nat :=
  {| todo := "walk the dog"; setTodo := fun _ n => (n + 7)%nat; handleAdd := fun _ n => S n |}.

End InputField.

(** ** Runs of the to-do page *)

Module TodoRuns.
Import JSNumber TodoApp.
Local Open Scope nat_scope.
Local Open Scope list_scope.

(** The text in the title field at each submission of a run that starts
    with [cur] in the field: the handler reads the field and leaves it
    as it is. *)
Fixpoint submitted_texts (cur : string) (acts : list Action) : list string :=
  match acts with
  | [] => []
  | TypeText t :: rest => submitted_texts t rest
  | Submit :: rest => cur :: submitted_texts cur rest
  end.

(** The records of successive submissions of [texts], the first of which
    takes the draw number [from] of the generator. *)
Fixpoint records (rnd : nat -> unit_number) (from : nat) (texts : list string)
  : list value :=
  match texts with
  | [] => []
  | t :: rest => VTodo (new_todo t (proj1_sig (rnd from))) :: records rnd (S from) rest
  end.

(** One [console.log] per element of [l], each showing the array up to
    and including that element. *)
Definition log_history (l : list value) : list LogEntry :=
  map (fun k => Logged (firstn (S k) l)) (seq 0 (List.length l)).

Definition is_digit (c : ascii) : bool :=
  (48 <=? nat_of_ascii c) && (nat_of_ascii c <=? 57).

Definition starts_with_digit (s : string) : bool :=
  match s with
  | String c _ => is_digit c
  | EmptyString => false
  end.

Definition id_of (v : value) : option string :=
  match v with
  | VTodo t => Some (id t)
  | VString _ => None
  end.

Definition is_uncaught (l : LogEntry) : bool :=
  match l with
  | Uncaught _ => true
  | Logged _ => false
  end.

(** A page without an element named [title]. *)
Definition bare_page : State := initial None always_half.

End TodoRuns.

(** ** Events on the rendered input component *)

Module InputEvents.
Import InputField.
Local Open Scope list_scope.

(** Is the event fired at the first child of the form, the input box? *)
Definition on_input_box (ev : FormEvent) : bool :=
  match ev_target ev with
  | [O] => true
  | _ => false
  end.

End InputEvents.

(** ** The examples of the guide ([README.md]) *)

Module Readme.
Import JSNumber.
Local Open Scope list_scope.

(** *** [function add(a: number, b: number): number] *)

Definition add (a b : number) : number := SFadd prec emax a b.

(** *** Values, [===] and property reads *)

(** The values of the language; an object is known by its reference. *)
Inductive jsval :=
| VUndefined
| VNull
| VBool (b : bool)
| VNum (x : number)
| VStr (s : string)
| VRef (ref : nat).

(** [a === b]: no conversion; numbers compare as IEEE 754 values, so
    [NaN] equals nothing and the two zeros are equal. *)
Definition strict_equals (a b : jsval) : bool :=
  match a, b with
  | VUndefined, VUndefined => true
  | VNull, VNull => true
  | VBool x, VBool y => Bool.eqb x y
  | VNum x, VNum y => SFeqb x y
  | VStr x, VStr y => String.eqb x y
  | VRef x, VRef y => Nat.eqb x y
  | _, _ => false
  end.

(** An object as the list of its properties; [item[key]] is the first
    binding of [key], [undefined] when there is none. *)
Definition object : Type := list (string * jsval).

Fixpoint get (item : object) (key : string) : jsval :=
  match item with
  | [] => VUndefined
  | (k, v) :: rest => if String.eqb k key then v else get rest key
  end.

(** [const filterByProperty = (arr, key, value) =>
       arr.filter(item => item[key] === value)] *)
Definition filterByProperty (arr : list object) (key : string) (value : jsval)
  : list object :=
  filter (fun item => strict_equals (get item key) value) arr.

(** [const users = [{ name: "Alice", age: 30 }, { name: "Bob", age: 25 }]] *)
Definition users : list object :=
  [ [("name", VStr "Alice"); ("age", VNum (of_Z 30))];
    [("name", VStr "Bob"); ("age", VNum (of_Z 25))] ].

(** *** [class Player] *)

(** The generator behind [Math.random]: its results and how many have
    been taken. *)
Record Generator := { source : nat -> TodoApp.unit_number; calls : nat }.

Definition Math_random (g : Generator) : number * Generator :=
  (proj1_sig (source g (calls g)), {| source := source g; calls := S (calls g) |}).

Record Player := { id : string; height : number; weight : number; power : number }.

(** [constructor(private height, public weight, protected power)
       { this.id = String(Math.random() * 100); }] *)
Definition new_Player (height weight power : number) (g : Generator)
  : Player * Generator :=
  let (r, g') := Math_random g in
  ({| id := toString (times r (of_Z 100));
      height := height; weight := weight; power := power |}, g').

(** [get getMyHeight(): number { return this.height; }] *)
Definition getMyHeight (this : Player) : number := height this.

(** [set changeHeight(val: number) { this.height = val; }] *)
Definition changeHeight (this : Player) (val : number) : Player :=
  {| id := id this; height := val; weight := weight this; power := power this |}.

(** [class SpecialPlayer extends Player]: the fields of a player and
    [special]. *)
Record SpecialPlayer := { as_Player : Player; special : bool }.

(** [constructor(height, weight, power, public special: boolean)
       { super(height, weight, power); }] *)
Definition new_SpecialPlayer (height weight power : number) (special : bool)
  (g : Generator) : SpecialPlayer * Generator :=
  let (base, g') := new_Player height weight power g in
  ({| as_Player := base; special := special |}, g').

(** [getPower(): number { return this.power; }] *)
Definition getPower (this : SpecialPlayer) : number := power (as_Player this).

(** The inherited setter on a special player. *)
Definition changeHeight_special (this : SpecialPlayer) (val : number) : SpecialPlayer :=
  {| as_Player := changeHeight (as_Player this) val; special := special this |}.

(** [0 <= x && x < 100] *)
Definition in_0_100 (x : number) : bool :=
  le (of_Z 0) x && lt x (of_Z 100).

Definition half_generator : Generator :=
  {| source := TodoApp.always_half; calls := 0 |}.

End Readme.

(** ** Facts about numbers *)

Module JSNumberFacts.
Import JSNumber.

Lemma digits2_bounds (p : positive) :
  2 ^ (Z.pos (digits2_pos p) - 1) <= Z.pos p < 2 ^ Z.pos (digits2_pos p).
Proof.
  induction p as [p IH | p IH | ]; cbn [digits2_pos].
  - rewrite Pos2Z.inj_succ.
    replace (Z.succ (Z.pos (digits2_pos p)) - 1)
      with (Z.succ (Z.pos (digits2_pos p) - 1)) by lia.
    rewrite !Z.pow_succ_r by lia. lia.
  - rewrite Pos2Z.inj_succ.
    replace (Z.succ (Z.pos (digits2_pos p)) - 1)
      with (Z.succ (Z.pos (digits2_pos p) - 1)) by lia.
    rewrite !Z.pow_succ_r by lia. lia.
  - cbn. lia.
Qed.

Lemma Zdigits2_bounds (z : Z) :
  0 < z -> 2 ^ (Zdigits2 z - 1) <= z < 2 ^ Zdigits2 z.
Proof.
  destruct z as [ | p | p]; intros Hz; try lia.
  apply digits2_bounds.
Qed.

Lemma Zdigits2_nonneg (z : Z) : 0 <= Zdigits2 z.
Proof. destruct z; cbn; lia. Qed.

(** An upper bound on a number of digits from an upper bound on the
    value. *)
Lemma Zdigits2_le (z b : Z) : 0 <= b -> 0 <= z < 2 ^ b -> Zdigits2 z <= b.
Proof.
  intros Hb [Hz Hlt].
  destruct (Z.eq_dec z 0) as [-> | Hne]; [cbn; lia | ].
  destruct (Zdigits2_bounds z) as [Hlo _]; [lia | ].
  assert (Zdigits2 z - 1 < b); [ | lia].
  apply (Z.pow_lt_mono_r_iff 2); lia.
Qed.

(** *** Shifting a mantissa to the right *)

(** [mrs] is what is left of [m] after [k] one-bit shifts: the
    quotient, and a round bit that is set only when the remainder is at
    least half of [2^k]. *)
Definition shifted (m k : Z) (mrs : shr_record) : Prop :=
  0 <= k /\ shr_m mrs = m / 2 ^ k /\ 0 <= shr_m mrs /\
  (shr_r mrs = true -> 1 <= k /\ 2 ^ (k - 1) <= m mod 2 ^ k).

Lemma shifted_start (m : Z) :
  0 <= m -> shifted m 0 {| shr_m := m; shr_r := false; shr_s := false |}.
Proof.
  intros Hm. unfold shifted; cbn.
  rewrite Z.div_1_r. repeat split; try lia; discriminate.
Qed.

Lemma shifted_step (m k : Z) (mrs : shr_record) :
  shifted m k mrs -> shifted m (k + 1) (shr_1 mrs).
Proof.
  intros (Hk & Hq & Hpos & _).
  assert (Hp : 0 < 2 ^ k) by (apply Z.pow_pos_nonneg; lia).
  assert (Hpow : 2 ^ (k + 1) = 2 ^ k * 2) by (rewrite Z.pow_add_r by lia; lia).
  assert (Hdiv : m / 2 ^ (k + 1) = shr_m mrs / 2)
    by (rewrite Hpow, <- Z.div_div, Hq by lia; reflexivity).
  pose proof (Z.div_mod m (2 ^ k) ltac:(lia)) as Hdm.
  pose proof (Z.mod_pos_bound m (2 ^ k) Hp) as Hrem.
  rewrite <- Hq in Hdm.
  assert (Hodd : forall p, shr_m mrs = 2 * p + 1 ->
                  1 <= k + 1 /\ 2 ^ (k + 1 - 1) <= m mod 2 ^ (k + 1)).
  { intros p Hp1. split; [lia | ].
    replace (k + 1 - 1) with k by lia.
    rewrite <- (Z.mod_unique m (2 ^ (k + 1)) p (2 ^ k + m mod 2 ^ k)); nia. }
  destruct mrs as [q r s]; cbn [shr_m shr_r] in *.
  unfold shifted.
  destruct q as [ | [p | p | ] | p]; cbn [shr_1 shr_m shr_r]; try lia;
    rewrite Hdiv; (split; [lia | split; [ | split; [lia | ] ] ]).
  - reflexivity.
  - discriminate.
  - rewrite Pos2Z.inj_xI. apply (Z.div_unique _ 2 _ 1); lia.
  - intros _. apply (Hodd (Z.pos p)). lia.
  - rewrite Pos2Z.inj_xO. apply (Z.div_unique _ 2 _ 0); lia.
  - discriminate.
  - reflexivity.
  - intros _. apply (Hodd 0). lia.
Qed.

Lemma shifted_iter (m : Z) (n : positive) :
  forall k mrs, shifted m k mrs -> shifted m (k + Z.pos n) (iter_pos shr_1 n mrs).
Proof.
  induction n as [n IH | n IH | ]; intros k mrs H; cbn [iter_pos].
  - replace (k + Z.pos n~1) with (k + 1 + Z.pos n + Z.pos n) by lia.
    apply IH, IH, shifted_step, H.
  - replace (k + Z.pos n~0) with (k + Z.pos n + Z.pos n) by lia.
    apply IH, IH, H.
  - apply shifted_step, H.
Qed.

Lemma shr_fexp_exact (m e : Z) :
  0 <= m ->
  exists mrs n,
    shr_fexp prec emax m e loc_Exact = (mrs, e + n) /\
    n = Z.max 0 (fexp prec emax (Zdigits2 m + e) - e) /\
    shifted m n mrs.
Proof.
  intros Hm. unfold shr_fexp, shr. cbn [shr_record_of_loc].
  destruct (fexp prec emax (Zdigits2 m + e) - e) as [ | p | p].
  - eexists _, 0. rewrite Z.add_0_r.
    split; [reflexivity | split; [reflexivity | apply shifted_start, Hm]].
  - eexists _, (Z.pos p).
    split; [reflexivity | split; [lia | ]].
    apply (shifted_iter m p 0), shifted_start, Hm.
  - eexists _, 0. rewrite Z.add_0_r.
    split; [reflexivity | split; [lia | apply shifted_start, Hm]].
Qed.

(** Rounding to nearest moves the shifted mantissa up by at most half a
    unit in the last place. *)
Lemma round_nearest_even_shifted (m n : Z) (mrs : shr_record) :
  0 <= m -> shifted m n mrs ->
  0 <= round_nearest_even (shr_m mrs) (loc_of_shr_record mrs) /\
  2 * (round_nearest_even (shr_m mrs) (loc_of_shr_record mrs) * 2 ^ n) <= 2 * m + 2 ^ n.
Proof.
  intros Hm (Hn & Hq & Hpos & Hr).
  assert (Hp : 0 < 2 ^ n) by (apply Z.pow_pos_nonneg; lia).
  pose proof (Z.div_mod m (2 ^ n) ltac:(lia)) as Hdm.
  pose proof (Z.mod_pos_bound m (2 ^ n) Hp) as Hrem.
  rewrite <- Hq in Hdm.
  assert (Hup : shr_r mrs = true ->
                2 * ((shr_m mrs + 1) * 2 ^ n) <= 2 * m + 2 ^ n).
  { intros Ht. destruct (Hr Ht) as [Hn1 Hhalf].
    assert (Hpow : 2 ^ n = 2 * 2 ^ (n - 1)).
    { replace n with (Z.succ (n - 1)) at 1 by lia.
      rewrite Z.pow_succ_r by lia. reflexivity. }
    nia. }
  assert (Hsame : 2 * (shr_m mrs * 2 ^ n) <= 2 * m + 2 ^ n) by nia.
  destruct mrs as [q r s]; cbn [shr_m shr_r loc_of_shr_record] in *.
  destruct r, s; cbn [round_nearest_even]; try (split; [lia | assumption]).
  - split; [lia | apply Hup; reflexivity].
  - destruct (Z.even q); (split; [lia | ]); [assumption | apply Hup; reflexivity].
Qed.

Lemma compare_cont_lt (p q : positive) :
  Z.pos p < Z.pos q -> Pos.compare_cont Eq p q = Lt.
Proof. intros H. exact H. Qed.

Lemma compare_cont_lt_inv (p q : positive) :
  Pos.compare_cont Eq p q = Lt -> Z.pos p < Z.pos q.
Proof. intros H. exact H. Qed.

Lemma of_Z_0 : of_Z 0 = S754_zero false.
Proof. reflexivity. Qed.

Lemma of_Z_1 : of_Z 1 = S754_finite false 4503599627370496 (-52).
Proof. vm_compute. reflexivity. Qed.

Lemma of_Z_1000 : of_Z 1000 = S754_finite false 8796093022208000 (-43).
Proof. vm_compute. reflexivity. Qed.

(** The product of a positive number below one with [1000], as the
    multiplication rounds it. *)
Lemma round_product_in_range (m : positive) (e : Z) :
  Z.pos m < 2 ^ 53 -> -1074 <= e <= -53 ->
  in_0_1000
    (binary_round_aux prec emax false
       (Z.pos (m * 8796093022208000)) (e + -43) loc_Exact) = true.
Proof.
  intros Hm He.
  set (M := 8796093022208000).
  set (mx := Z.pos (m * 8796093022208000)).
  assert (Hmx : mx = Z.pos m * M) by reflexivity.
  assert (HM : 2 ^ 52 < M < 2 ^ 53) by (cbn; lia).
  assert (H53 : 2 ^ 53 = 9007199254740992) by reflexivity.
  assert (H52 : 2 ^ 52 = 4503599627370496) by reflexivity.
  set (Q := 2 ^ (- e - 53)).
  assert (HQ : 1 <= Q) by (assert (0 < Q) by (apply Z.pow_pos_nonneg; lia); lia).
  assert (HeQ : 2 ^ (- e) = 2 ^ 53 * Q).
  { unfold Q. rewrite <- Z.pow_add_r by lia. f_equal. lia. }
  (* first shift and rounding *)
  destruct (shr_fexp_exact mx (e + -43) ltac:(lia)) as (mrs1 & n & Heq1 & Hn & Hsh1).
  destruct (round_nearest_even_shifted mx n mrs1 ltac:(lia) Hsh1) as (Hr0 & Hr).
  unfold binary_round_aux. rewrite Heq1.
  set (r := round_nearest_even (shr_m mrs1) (loc_of_shr_record mrs1)) in *.
  assert (Hd : Zdigits2 mx <= 53 - e).
  { apply Zdigits2_le; [lia | ]. split; [lia | ].
    replace (53 - e) with (53 + - e) by lia.
    rewrite Z.pow_add_r, HeQ by lia. nia. }
  unfold fexp, JSNumber.emin, SpecFloat.emin, prec, emax in Hn.
  set (j := - 43 - (e + -43 + n)).
  assert (Hj : 0 <= j) by lia.
  assert (He1 : -1074 <= e + -43 + n) by lia.
  assert (Hnj : 2 ^ j * 2 ^ n = 2 ^ 53 * Q).
  { rewrite <- Z.pow_add_r, <- HeQ by lia. f_equal. lia. }
  assert (Hpn : 0 < 2 ^ n) by (apply Z.pow_pos_nonneg; lia).
  assert (Hpj : 0 < 2 ^ j) by (apply Z.pow_pos_nonneg; lia).
  assert (Hn_le : 2 ^ n <= 2 ^ 53 * Q) by nia.
  assert (Hrlt : r < M * 2 ^ j).
  { apply (Z.mul_lt_mono_pos_r (2 ^ n)); [assumption | ].
    replace (M * 2 ^ j * 2 ^ n) with (M * (2 ^ 53 * Q)) by (rewrite <- Hnj; ring).
    rewrite Hmx in Hr. subst M. rewrite H53 in *. nia. }
  (* second shift *)
  destruct (shr_fexp_exact r (e + -43 + n) Hr0) as (mrs2 & n2 & Heq2 & Hn2 & Hsh2).
  rewrite Heq2.
  assert (Hd2 : Zdigits2 r <= 53 + j).
  { apply Zdigits2_le; [lia | ]. split; [assumption | ].
    rewrite Z.pow_add_r by lia. nia. }
  unfold fexp, JSNumber.emin, SpecFloat.emin, prec, emax in Hn2.
  assert (Hn2j : 0 <= n2 <= j) by lia.
  destruct Hsh2 as (_ & Hq2 & Hpos2 & _).
  destruct (shr_m mrs2) as [ | p | p] eqn:Hm2; [reflexivity | | lia].
  unfold prec, emax.
  replace (e + -43 + n + n2 <=? 1024 - 53) with true by (symmetry; apply Z.leb_le; lia).
  unfold in_0_1000, le, lt. rewrite of_Z_0, of_Z_1000.
  cbn [SFleb SFltb SFcompare andb].
  destruct (Z.compare_spec (e + -43 + n + n2) (-43)) as [Heq | Hlt | Hgt];
    [ | reflexivity | lia].
  assert (Hp : Z.pos p < M).
  { rewrite Hq2. apply Z.div_lt_upper_bound; [apply Z.pow_pos_nonneg; lia | ].
    replace n2 with j by lia. lia. }
  rewrite (compare_cont_lt p 8796093022208000 Hp). reflexivity.
Qed.

(** A positive number below one has a mantissa of at most 53 bits and
    an exponent of at most -53. *)
Lemma unit_finite (m : positive) (e : Z) :
  is_unit (S754_finite false m e) = true ->
  Z.pos m < 2 ^ 53 /\ -1074 <= e <= -53.
Proof.
  unfold is_unit, well_formed, positive_sign, lt. rewrite of_Z_1.
  cbn [valid_binary negb].
  unfold bounded, canonical_mantissa, fexp, SpecFloat.emin, prec, emax.
  intros H.
  apply andb_prop in H as [H Hlt]. apply andb_prop in H as [H _].
  apply andb_prop in H as [Hc _]. apply Z.eqb_eq in Hc.
  pose proof (digits2_bounds m) as [Hlo Hhi].
  set (d := Z.pos (digits2_pos m)) in *.
  assert (Hd : d <= 53) by lia.
  assert (Hpow : 2 ^ d <= 2 ^ 53) by (apply Z.pow_le_mono_r; lia).
  split; [lia | ]. split; [lia | ].
  unfold SFltb, SFcompare in Hlt.
  destruct (Z.compare_spec e (-52)) as [Heq | Hl | Hg]; [ | lia | discriminate].
  exfalso.
  destruct (Pos.compare_cont Eq m 4503599627370496) eqn:Hcmp; try discriminate.
  apply compare_cont_lt_inv in Hcmp.
  assert (Hd53 : d = 53) by lia.
  rewrite Hd53 in Hlo. change (2 ^ (53 - 1)) with 4503599627370496 in Hlo.
  apply (Z.lt_irrefl (Z.pos m)), (Z.lt_le_trans _ _ _ Hcmp Hlo).
Qed.

(** [Math.random() * 1000] lies in the interval from 0 (inclusive) to
    1000 (exclusive), whatever [Math.random()] returned. *)
Lemma times_unit_in_range (r : number) :
  is_unit r = true -> in_0_1000 (times r (of_Z 1000)) = true.
Proof.
  intros H. unfold times. rewrite of_Z_1000.
  destruct r as [s | s | | s m e];
    unfold is_unit in H; cbn [well_formed valid_binary positive_sign andb] in H;
    try discriminate.
  - destruct s; [discriminate | reflexivity].
  - destruct s.
    + rewrite andb_false_r in H. discriminate.
    + apply unit_finite in H as [Hm He].
      cbn [SFmul xorb]. apply round_product_in_range; assumption.
Qed.

(** *** Number::toString on a few numbers *)

Example toString_500 :
  toString (times (S754_finite false 4503599627370496 (-53)) (of_Z 1000)) = "500".
Proof. vm_compute. reflexivity. Qed.

Example toString_largest_product :
  toString (times (S754_finite false 9007199254740991 (-53)) (of_Z 1000))
  = "999.9999999999999".
Proof. vm_compute. reflexivity. Qed.

Example toString_third :
  toString (times (SFdiv prec emax (of_Z 1) (of_Z 3)) (of_Z 1000)) = "333.3333333333333".
Proof. vm_compute. reflexivity. Qed.

Example toString_small :
  toString (times (SFdiv prec emax (of_Z 7) (of_Z 1000000007)) (of_Z 1000))
  = "0.000006999999951".
Proof. vm_compute. reflexivity. Qed.

Example toString_denormal : toString (S754_finite false 1 (-1074)) = "5e-324".
Proof. vm_compute. reflexivity. Qed.

Example toString_exponent : toString (of_Z (10 ^ 21)) = "1e+21".
Proof. vm_compute. reflexivity. Qed.

Example toString_integer : toString (of_Z (10 ^ 20 + 12345)) = "100000000000000020000".
Proof. vm_compute. reflexivity. Qed.

(** *** The string of a number is never empty *)

Lemma digits_nonempty (z : Z) : digits z <> "".
Proof.
  unfold digits. destruct (N.to_uint (Z.to_N z)); cbn; discriminate.
Qed.

Lemma append_nonempty_l (a b : string) : a <> "" -> a ++ b <> "".
Proof. destruct a; [congruence | cbn; discriminate]. Qed.

Lemma append_nonempty_r (a b : string) : b <> "" -> a ++ b <> "".
Proof. destruct a; [cbn; trivial | cbn; discriminate]. Qed.

Lemma layout_nonempty (n k s : Z) : layout n k s <> "".
Proof.
  unfold layout, exponent_part.
  destruct ((-5 <=? n) && (n <=? 21)).
  - destruct (k <=? n); [apply append_nonempty_l, digits_nonempty | ].
    destruct (0 <? n).
    + apply append_nonempty_r, append_nonempty_l. discriminate.
    + discriminate.
  - destruct (k =? 1).
    + apply append_nonempty_l, digits_nonempty.
    + apply append_nonempty_r, append_nonempty_l. discriminate.
Qed.

Lemma toString_nonempty (x : number) : toString x <> "".
Proof.
  assert (Hpos : forall m e, toString_pos m e <> "").
  { intros m e. unfold toString_pos.
    destruct (nks m e) as [[n k] s]. apply layout_nonempty. }
  destruct x as [s | [ | ] | | [ | ] m e]; cbn [toString];
    try discriminate; try apply append_nonempty_r; apply Hpos.
Qed.

End JSNumberFacts.

(** ** Facts about the form handler *)

Module TodoAppFacts.
Import JSNumber TodoApp JSNumberFacts.
Local Open Scope nat_scope.
Local Open Scope list_scope.

(** The handler on a page that has the title field. *)
Lemma onsubmit_present (s : State) (t : string) :
  todoInput s = Some t ->
  exists s',
    onsubmit s = (Normal tt, s') /\
    todos s' = todos s ++ [VTodo (new_todo t (draw s))] /\
    todoInput s' = Some t /\
    event s' = {| defaultPrevented := true |} /\
    console s' = console s ++ [Logged (todos s ++ [VTodo (new_todo t (draw s))])] /\
    random_source s' = random_source s /\
    random_calls s' = S (random_calls s) /\
    trace s' = trace s ++ [PreventDefault; GetValue t; MathRandom (draw s);
                           ArrayPush (VTodo (new_todo t (draw s)));
                           ConsoleLog (todos s ++ [VTodo (new_todo t (draw s))])].
Proof.
  intros H. eexists. split.
  - unfold onsubmit, bind, preventDefault, todoInput_value. cbn.
    rewrite H. reflexivity.
  - cbn. repeat split; try assumption.
    rewrite <- !app_assoc. reflexivity.
Qed.

(** The handler on a page without the field: the property read throws
    after [preventDefault], and [todos] is left alone. *)
Lemma onsubmit_absent (s : State) :
  todoInput s = None ->
  exists err s',
    onsubmit s = (Throw err, s') /\ todos s' = todos s /\ todoInput s' = None.
Proof.
  intros H. eexists _, _. split.
  - unfold onsubmit, bind, preventDefault, todoInput_value. cbn.
    rewrite H. reflexivity.
  - cbn. split; [reflexivity | assumption].
Qed.

Lemma dispatch_present (s : State) (t : string) :
  todoInput s = Some t ->
  todos (dispatch_submit s) = todos s ++ [VTodo (new_todo t (draw s))] /\
  todoInput (dispatch_submit s) = Some t.
Proof.
  intros H. unfold dispatch_submit.
  destruct (onsubmit_present (set_event {| defaultPrevented := false |} s) t H)
    as (s' & -> & Ht & Hi & _).
  split; assumption.
Qed.

Lemma dispatch_absent (s : State) :
  todoInput s = None ->
  todos (dispatch_submit s) = todos s /\ todoInput (dispatch_submit s) = None.
Proof.
  intros H. unfold dispatch_submit.
  destruct (onsubmit_absent (set_event {| defaultPrevented := false |} s) H)
    as (err & s' & -> & Ht & Hi).
  split; assumption.
Qed.

(** One action adds at most the record of one submission, at the end. *)
Lemma step_todos (s : State) (a : Action) :
  todos (step s a) = todos s \/
  exists t, a = Submit /\ todoInput s = Some t /\
            todos (step s a) = todos s ++ [VTodo (new_todo t (draw s))].
Proof.
  destruct a as [t | ]; cbn [step].
  - left. destruct (todoInput s); reflexivity.
  - destruct (todoInput s) as [t | ] eqn:H.
    + right. exists t. repeat split. apply dispatch_present, H.
    + left. apply dispatch_absent, H.
Qed.

(** The title field does not go away. *)
Lemma step_keeps_field (s : State) (a : Action) :
  todoInput s <> None -> todoInput (step s a) <> None.
Proof.
  intros H. destruct a as [t | ]; cbn [step].
  - destruct (todoInput s) eqn:Ht; [discriminate | congruence].
  - destruct (todoInput s) as [t | ] eqn:Ht; [ | congruence].
    destruct (dispatch_present s t Ht) as [_ ->]. discriminate.
Qed.

Lemma run_keeps_field (acts : list Action) :
  forall s, todoInput s <> None -> todoInput (run acts s) <> None.
Proof.
  induction acts as [ | a acts IH]; intros s H; [exact H | ].
  cbn. apply IH, step_keeps_field, H.
Qed.

Lemma run_snoc (acts : list Action) (a : Action) (s : State) :
  run (acts ++ [a]) s = step (run acts s) a.
Proof. unfold run. rewrite fold_left_app. reflexivity. Qed.

Lemma step_length (s : State) (a : Action) :
  todoInput s <> None ->
  List.length (todos (step s a)) =
  List.length (todos s) + submissions [a].
Proof.
  intros H. destruct a as [t | ]; cbn [step submissions filter List.length].
  - destruct (todoInput s); cbn; lia.
  - destruct (todoInput s) as [t | ] eqn:Ht; [ | congruence].
    destruct (dispatch_present s t Ht) as [-> _].
    rewrite length_app. reflexivity.
Qed.

Lemma submissions_cons (a : Action) (acts : list Action) :
  submissions (a :: acts) = submissions [a] + submissions acts.
Proof. unfold submissions. destruct a; reflexivity. Qed.

Lemma run_length (acts : list Action) :
  forall s, todoInput s <> None ->
    List.length (todos (run acts s)) = List.length (todos s) + submissions acts.
Proof.
  induction acts as [ | a acts IH]; intros s H.
  - cbn. lia.
  - change (run (a :: acts) s) with (run acts (step s a)).
    rewrite IH by (apply step_keeps_field, H).
    rewrite step_length, (submissions_cons a acts) by exact H. lia.
Qed.

Lemma step_extends (s : State) (a : Action) :
  exists added, todos (step s a) = todos s ++ added /\
                List.length added <= submissions [a].
Proof.
  destruct (step_todos s a) as [H | (t & -> & _ & H)].
  - exists []. rewrite app_nil_r. split; [exact H | cbn; lia].
  - eexists. split; [exact H | cbn; lia].
Qed.

Lemma run_extends (acts : list Action) :
  forall s, exists added,
    todos (run acts s) = todos s ++ added /\
    List.length added <= submissions acts.
Proof.
  induction acts as [ | a acts IH]; intros s.
  - exists []. cbn. rewrite app_nil_r. split; [reflexivity | lia].
  - change (run (a :: acts) s) with (run acts (step s a)).
    destruct (IH (step s a)) as (l2 & -> & H2).
    destruct (step_extends s a) as (l1 & -> & H1).
    exists (l1 ++ l2). rewrite app_assoc, length_app, (submissions_cons a acts).
    split; [reflexivity | lia].
Qed.

Lemma new_todo_fresh (t : string) (r : unit_number) :
  fresh_entry (VTodo (new_todo t (proj1_sig r))).
Proof.
  exists (new_todo t (proj1_sig r)), (times (proj1_sig r) (of_Z 1000)).
  repeat split. apply times_unit_in_range, (proj2_sig r).
Qed.

Lemma step_fresh (s : State) (a : Action) :
  Forall fresh_entry (todos s) -> Forall fresh_entry (todos (step s a)).
Proof.
  intros H. destruct (step_todos s a) as [-> | (t & _ & _ & ->)]; [exact H | ].
  apply Forall_app. split; [exact H | ].
  constructor; [apply new_todo_fresh | constructor].
Qed.

(** *** The claims *)

(** C1: for every text [t] in the title field, the submit handler
    appends exactly one record to [todos]; the record has [title = t],
    [isCompleted = false] and an [id] that is a non-empty string. *)
Theorem onsubmit_appends_one_record (s : State) (t : string) :
  todoInput s = Some t ->
  exists (s' : State) (i : string),
    onsubmit s = (Normal tt, s') /\
    todos s' = todos s ++ [VTodo {| title := t; isCompleted := false; id := i |}] /\
    i <> EmptyString.
Proof.
  intros H. destruct (onsubmit_present s t H) as (s' & Hrun & Htodos & _).
  exists s', (toString (times (draw s) (of_Z 1000%Z))).
  repeat split; [exact Hrun | exact Htodos | apply toString_nonempty].
Qed.

Lemma onsubmit_appends_one_record_witness :
  exists (s' : State) (i : string),
    onsubmit sample_page = (Normal tt, s') /\
    todos s' = todos sample_page
               ++ [VTodo {| title := "buy milk"; isCompleted := false; id := i |}] /\
    i <> EmptyString.
Proof. apply (onsubmit_appends_one_record sample_page "buy milk"). reflexivity. Defined.

(** C3: starting from the empty array, on a page with the title field,
    the length of [todos] after any sequence of actions is the number of
    submissions in it, one more submission makes it one longer, and no
    action in any state makes it shorter. *)
Theorem todos_length_counts_submissions
  (t0 : string) (rnd : nat -> unit_number) (acts : list Action) :
  let s := run acts (initial (Some t0) rnd) in
  List.length (todos s) = submissions acts /\
  List.length (todos (step s Submit)) = S (List.length (todos s)) /\
  (forall (s' : State) (a : Action),
      List.length (todos s') <= List.length (todos (step s' a))).
Proof.
  intros s. split; [ | split].
  - subst s. rewrite run_length by (cbn; discriminate). reflexivity.
  - rewrite step_length by (apply run_keeps_field; cbn; discriminate).
    cbn. lia.
  - intros s' a. destruct (step_extends s' a) as (l & -> & _).
    rewrite length_app. lia.
Qed.

(** C4: the array is append-only. After any sequence of actions, and
    so after one submission, the array is the array before followed by
    the added records: every record that was there is still there, at
    the same index and unchanged. *)
Theorem todos_append_only (s : State) (acts : list Action) :
  (exists added, todos (dispatch_submit s) = todos s ++ added) /\
  (exists added, todos (run acts s) = todos s ++ added) /\
  firstn (List.length (todos s)) (todos (run acts s)) = todos s /\
  (forall (i : nat) (v : value),
      nth_error (todos s) i = Some v -> nth_error (todos (run acts s)) i = Some v).
Proof.
  destruct (run_extends acts s) as (l & Hl & _).
  destruct (step_extends s Submit) as (l1 & Hl1 & _).
  split; [exists l1; exact Hl1 | ].
  split; [exists l; exact Hl | ].
  rewrite Hl. split.
  - rewrite firstn_app, Nat.sub_diag, firstn_all, firstn_O, app_nil_r. reflexivity.
  - intros i v H. rewrite nth_error_app1; [exact H | ].
    apply nth_error_Some. congruence.
Qed.

Lemma todos_append_only_witness :
  nth_error (todos (run [TypeText "walk the dog"; Submit] page_after_one)) 0
  = Some (VTodo {| title := "buy milk"; isCompleted := false; id := "500" |}).
Proof.
  apply (proj2 (proj2 (proj2
           (todos_append_only page_after_one [TypeText "walk the dog"; Submit])))).
  reflexivity.
Defined.

(** C5: the handler prevents the default action, reads the text of the
    title field, draws the random number and builds the record, appends
    the record to [todos], and writes the whole array, new record
    included, to the console, in this order. *)
Theorem onsubmit_effects_in_order (s : State) (t : string) :
  todoInput s = Some t ->
  let todo := {| title := t; isCompleted := false;
                 id := toString (times (draw s) (of_Z 1000%Z)) |} in
  exists s' : State,
    onsubmit s = (Normal tt, s') /\
    trace s' = trace s ++ [PreventDefault;
                           GetValue t;
                           MathRandom (draw s);
                           ArrayPush (VTodo todo);
                           ConsoleLog (todos s ++ [VTodo todo])] /\
    defaultPrevented (event s') = true /\
    todos s' = todos s ++ [VTodo todo] /\
    console s' = console s ++ [Logged (todos s')].
Proof.
  intros H todo.
  destruct (onsubmit_present s t H)
    as (s' & Hrun & Htodos & _ & Hev & Hcon & _ & _ & Htr).
  exists s'. rewrite Hev, Htodos. repeat split; assumption.
Qed.

Lemma onsubmit_effects_in_order_witness :
  let todo := {| title := "buy milk"; isCompleted := false; id := "500" |} in
  exists s' : State,
    onsubmit sample_page = (Normal tt, s') /\
    trace s' = [PreventDefault;
                GetValue "buy milk";
                MathRandom (S754_finite false 4503599627370496 (-53));
                ArrayPush (VTodo todo);
                ConsoleLog [VTodo todo]] /\
    defaultPrevented (event s') = true /\
    todos s' = [VTodo todo] /\
    console s' = [Logged (todos s')].
Proof. apply (onsubmit_effects_in_order sample_page "buy milk"). reflexivity. Defined.

(** C6: an empty title is accepted like any other: with the empty
    string in the field the handler returns normally and appends a record
    whose title is the empty string; and whatever the text in the field,
    the handler returns normally and nothing uncaught reaches the
    console. *)
Theorem empty_title_is_accepted :
  (forall s : State,
      todoInput s = Some EmptyString ->
      exists (s' : State) (i : string),
        onsubmit s = (Normal tt, s') /\
        todos s' = todos s
                   ++ [VTodo {| title := EmptyString; isCompleted := false; id := i |}]) /\
  (forall (s : State) (t : string),
      todoInput s = Some t ->
      fst (onsubmit s) = Normal tt /\
      console (dispatch_submit s)
      = console s ++ [Logged (todos (dispatch_submit s))]).
Proof.
  split.
  - intros s H. destruct (onsubmit_present s _ H) as (s' & Hrun & Htodos & _).
    exists s', (toString (times (draw s) (of_Z 1000%Z))). split; assumption.
  - intros s t H. split.
    + destruct (onsubmit_present s t H) as (s' & -> & _). reflexivity.
    + unfold dispatch_submit.
      destruct (onsubmit_present (set_event {| defaultPrevented := false |} s) t H)
        as (s' & -> & Htodos & _ & _ & Hcon & _).
      rewrite Hcon, Htodos. reflexivity.
Qed.

Lemma empty_title_is_accepted_witness :
  exists (s' : State) (i : string),
    onsubmit blank_page = (Normal tt, s') /\
    todos s' = [VTodo {| title := EmptyString; isCompleted := false; id := i |}].
Proof. apply (proj1 empty_title_is_accepted blank_page). reflexivity. Defined.

(** C7: the identifier of a new record is the string of the number
    [Math.random() * 1000], and identifiers can repeat: there is a
    generator under which two submissions, of different titles, leave
    two records with the same identifier. *)
Theorem ids_may_collide :
  (forall (s : State) (t : string),
      todoInput s = Some t ->
      exists s' : State,
        onsubmit s = (Normal tt, s') /\
        todos s' = todos s
                   ++ [VTodo {| title := t; isCompleted := false;
                                id := toString (times (draw s) (of_Z 1000%Z)) |}]) /\
  (exists (rnd : nat -> unit_number) (a b : Todo),
      todos (run [TypeText "a"; Submit; TypeText "b"; Submit] (initial (Some EmptyString) rnd))
      = [VTodo a; VTodo b] /\
      title a <> title b /\ id a = id b).
Proof.
  split.
  - intros s t H. destruct (onsubmit_present s t H) as (s' & Hrun & Htodos & _).
    exists s'. split; assumption.
  - exists always_half,
      {| title := "a"; isCompleted := false; id := "500" |},
      {| title := "b"; isCompleted := false; id := "500" |}.
    split; [vm_compute; reflexivity | ].
    split; [discriminate | reflexivity].
Qed.

Lemma ids_may_collide_witness :
  exists s' : State,
    onsubmit sample_page = (Normal tt, s') /\
    todos s' = [VTodo {| title := "buy milk"; isCompleted := false; id := "500" |}].
Proof. apply (proj1 ids_may_collide sample_page "buy milk"). reflexivity. Defined.

(** C10: starting from the empty array, after every sequence of
    actions every element of [todos] is a record of the three fields
    with [isCompleted = false] and an [id] that is the string of a number
    [x] with [0 <= x] and [x < 1000]. *)
Theorem todos_entries_invariant
  (field : option string) (rnd : nat -> unit_number) (acts : list Action) :
  Forall fresh_entry (todos (run acts (initial field rnd))).
Proof.
  assert (Hrun : forall s, Forall fresh_entry (todos s) ->
                           Forall fresh_entry (todos (run acts s))).
  { induction acts as [ | a acts IH]; intros s H; [exact H | ].
    change (run (a :: acts) s) with (run acts (step s a)).
    apply IH, step_fresh, H. }
  apply Hrun. constructor.
Qed.

End TodoAppFacts.

(** ** Facts about the input component *)

Module InputFieldFacts.
Import InputField.
Local Open Scope nat_scope.
Local Open Scope list_scope.

(** The rendered form has one text field and one submit button among
    its children. *)
Lemma InputFeild_fields (App Hooks : Type) (p : Props App) (h : Hooks) :
  let form := fst (InputFeild p h) in
  tag_of form = Some "form" /\
  List.length (filter is_text_field (children_of form)) = 1 /\
  List.length (filter is_submit_button (children_of form)) = 1.
Proof. destruct p. cbn. repeat split. Qed.

(** C2: submitting the rendered form does not reach [handleAdd]. The
    [onSubmit] prop sits on the [<input>] element; a submit event is
    fired at the [<form>] and runs the handlers from the form upwards, so
    the callback is not run and the parent keeps its state. With a parent
    that counts the calls, the count stays at 0, where one call of
    [handleAdd] would give 1. *)
Theorem submit_does_not_reach_handleAdd :
  (forall (App Hooks : Type) (p : Props App) (h : Hooks) (app : App),
      submit_form (fst (InputFeild p h)) app = app) /\
  submit_form (fst (InputFeild (counting "buy milk") tt)) 0 = 0 /\
  handleAdd (counting "buy milk") submit_event 0 = 1.
Proof.
  split; [ | split; reflexivity].
  intros App Hooks p h app. destruct p. reflexivity.
Qed.

(** C8: the component is stateless and deterministic: two renders with
    equal props give the same tree, whatever the hook cells hold, and
    rendering leaves the hook cells as they were. *)
Theorem InputFeild_deterministic
  (App Hooks : Type) (p1 p2 : Props App) (h1 h2 : Hooks) :
  p1 = p2 ->
  fst (InputFeild p1 h1) = fst (InputFeild p2 h2) /\
  snd (InputFeild p1 h1) = h1.
Proof. intros <-. destruct p1. split; reflexivity. Qed.

Lemma InputFeild_deterministic_witness :
  fst (InputFeild (counting "buy milk") 1) = fst (InputFeild (counting "buy milk") 2) /\
  snd (InputFeild (counting "buy milk") 1) = 1.
Proof.
  apply (InputFeild_deterministic nat nat (counting "buy milk") (counting "buy milk") 1 2).
  reflexivity.
Defined.

(** C9: the rendered tree depends on [handleAdd] alone: props that
    agree on [handleAdd] render the same tree, whatever [todo] and
    [setTodo] are; and the input box is rendered without a value, so it
    shows no text. *)
Theorem InputFeild_ignores_todo
  (App Hooks : Type) (p1 p2 : Props App) (h1 h2 : Hooks) :
  handleAdd p1 = handleAdd p2 ->
  fst (InputFeild p1 h1) = fst (InputFeild p2 h2) /\
  Forall (fun el => is_text_field el = true ->
                    attr "value" el = None /\ displayed_text el = EmptyString)
         (children_of (fst (InputFeild p1 h1))).
Proof.
  intros H. destruct p1, p2. cbn in H. subst. split; [reflexivity | ].
  cbn. repeat constructor; cbn; discriminate.
Qed.

Lemma InputFeild_ignores_todo_witness :
  fst (InputFeild (counting "buy milk") 1) = fst (InputFeild counting_other 2) /\
  Forall (fun el => is_text_field el = true ->
                    attr "value" el = None /\ displayed_text el = EmptyString)
         (children_of (fst (InputFeild (counting "buy milk") 1))).
Proof.
  apply (InputFeild_ignores_todo nat nat (counting "buy milk") counting_other 1 2).
  reflexivity.
Defined.

End InputFieldFacts.

(** ** More facts about the form handler *)

Module TodoRunsFacts.
Import JSNumber TodoApp JSNumberFacts TodoAppFacts TodoRuns.
Local Open Scope nat_scope.
Local Open Scope list_scope.

(** A submission on a page that has the title field, field by field. *)
Lemma dispatch_with_field (s : State) (t : string) :
  todoInput s = Some t ->
  todos (dispatch_submit s) = todos s ++ [VTodo (new_todo t (draw s))] /\
  todoInput (dispatch_submit s) = Some t /\
  console (dispatch_submit s) = console s ++ [Logged (todos (dispatch_submit s))] /\
  random_source (dispatch_submit s) = random_source s /\
  random_calls (dispatch_submit s) = S (random_calls s).
Proof.
  intros H. unfold dispatch_submit.
  destruct (onsubmit_present (set_event {| defaultPrevented := false |} s) t H)
    as (s' & -> & Htodos & Hin & _ & Hcon & Hsrc & Hcalls & _).
  rewrite Hcon, Htodos. repeat split; assumption.
Qed.

(** The handler on a page without the title field, field by field. *)
Lemma onsubmit_bare (s : State) :
  todoInput s = None ->
  exists (msg : string) (s' : State),
    onsubmit s = (Throw (TypeError msg), s') /\
    todos s' = todos s /\
    todoInput s' = None /\
    console s' = console s /\
    random_source s' = random_source s /\
    random_calls s' = random_calls s /\
    defaultPrevented (event s') = true /\
    trace s' = trace s ++ [PreventDefault].
Proof.
  intros H. eexists _, _. split.
  - unfold onsubmit, bind, preventDefault, todoInput_value. cbn.
    rewrite H. reflexivity.
  - cbn. repeat split. exact H.
Qed.

Lemma dispatch_bare (s : State) :
  todoInput s = None ->
  exists err : Error,
    todos (dispatch_submit s) = todos s /\
    todoInput (dispatch_submit s) = None /\
    console (dispatch_submit s) = console s ++ [Uncaught err] /\
    random_calls (dispatch_submit s) = random_calls s.
Proof.
  intros H. unfold dispatch_submit.
  destruct (onsubmit_bare (set_event {| defaultPrevented := false |} s) H)
    as (msg & s' & -> & Htodos & Hin & Hcon & _ & Hcalls & _).
  exists (TypeError msg). cbn. rewrite Hcon. repeat split; assumption.
Qed.

(** Without the element named [title] the handler stops at the read of
    [todoInput.value]: it throws a [TypeError] after it has prevented the
    default action, and has touched neither the array, nor the console,
    nor the random generator. *)
Theorem onsubmit_without_field (s : State) :
  todoInput s = None ->
  exists (msg : string) (s' : State),
    onsubmit s = (Throw (TypeError msg), s') /\
    todos s' = todos s /\
    console s' = console s /\
    random_calls s' = random_calls s /\
    defaultPrevented (event s') = true /\
    trace s' = trace s ++ [PreventDefault].
Proof.
  intros H.
  destruct (onsubmit_bare s H)
    as (msg & s' & Hrun & Htodos & _ & Hcon & _ & Hcalls & Hev & Htr).
  exists msg, s'. repeat split; assumption.
Qed.

Lemma onsubmit_without_field_witness :
  exists (msg : string) (s' : State),
    onsubmit bare_page = (Throw (TypeError msg), s') /\
    todos s' = [] /\
    console s' = [] /\
    random_calls s' = 0 /\
    defaultPrevented (event s') = true /\
    trace s' = [PreventDefault].
Proof. apply (onsubmit_without_field bare_page). reflexivity. Defined.

Lemma run_bare (acts : list Action) :
  forall s, todoInput s = None ->
    todos (run acts s) = todos s /\
    random_calls (run acts s) = random_calls s /\
    exists errs : list Error,
      console (run acts s) = console s ++ map Uncaught errs /\
      List.length errs = submissions acts.
Proof.
  induction acts as [ | a acts IH]; intros s H.
  - cbn. repeat split. exists []. cbn. rewrite app_nil_r. split; reflexivity.
  - change (run (a :: acts) s) with (run acts (step s a)).
    rewrite (submissions_cons a acts).
    destruct a as [t | ]; cbn [step].
    + rewrite H. destruct (IH s H) as (Ht & Hc & errs & Hcon & Hlen).
      repeat split; try assumption. exists errs. split; assumption.
    + destruct (dispatch_bare s H) as (err & Ht & Hi & Hcon & Hc).
      destruct (IH (dispatch_submit s) Hi) as (Ht' & Hc' & errs & Hcon' & Hlen).
      rewrite Ht', Hc', Hcon', Ht, Hc, Hcon. repeat split.
      exists (err :: errs). cbn. rewrite <- app_assoc, Hlen. split; reflexivity.
Qed.

(** On a page without the title element nothing is ever added: after
    any sequence of actions the array is still empty and no random number
    has been drawn; each submission has left one uncaught error on the
    console and nothing else is there. *)
Theorem bare_page_stays_empty (rnd : nat -> unit_number) (acts : list Action) :
  let s := run acts (initial None rnd) in
  todos s = [] /\
  random_calls s = 0 /\
  List.length (console s) = submissions acts /\
  forallb is_uncaught (console s) = true.
Proof.
  intros s.
  destruct (run_bare acts (initial None rnd) eq_refl) as (Ht & Hc & errs & Hcon & Hlen).
  fold s in Ht, Hc, Hcon. rewrite Ht, Hc, Hcon. cbn.
  rewrite length_map, Hlen. repeat split.
  apply forallb_forall. intros l Hl. apply in_map_iff in Hl as (err & <- & _).
  reflexivity.
Qed.

Lemma run_with_field (acts : list Action) :
  forall (s : State) (cur : string),
    todoInput s = Some cur ->
    todos (run acts s)
    = todos s ++ records (random_source s) (random_calls s) (submitted_texts cur acts) /\
    random_calls (run acts s) = random_calls s + submissions acts.
Proof.
  induction acts as [ | a acts IH]; intros s cur H.
  - cbn. rewrite app_nil_r. split; [reflexivity | lia].
  - change (run (a :: acts) s) with (run acts (step s a)).
    rewrite (submissions_cons a acts).
    destruct a as [t | ]; cbn [step submitted_texts].
    + rewrite H. destruct (IH (set_todoInput (Some t) s) t eq_refl) as [Ht Hc].
      rewrite Ht, Hc. cbn. split; reflexivity.
    + destruct (dispatch_with_field s cur H) as (Ht & Hi & _ & Hsrc & Hc).
      destruct (IH (dispatch_submit s) cur Hi) as [Ht' Hc'].
      rewrite Ht', Hc', Ht, Hsrc, Hc. cbn [records submissions filter List.length].
      rewrite <- app_assoc. split; [reflexivity | lia].
Qed.

(** The whole array after a run on a page with the title field: one
    record per submission, in the order of the submissions; the record of
    submission number [k] (from 0) has the text that was in the field at
    that moment as its title and the string of [1000] times the draw
    number [k] as its id. The number of draws taken is the number of
    submissions. *)
Theorem todos_of_run (t0 : string) (rnd : nat -> unit_number) (acts : list Action) :
  let s := run acts (initial (Some t0) rnd) in
  todos s = records rnd 0 (submitted_texts t0 acts) /\
  random_calls s = submissions acts.
Proof.
  intros s. destruct (run_with_field acts (initial (Some t0) rnd) t0 eq_refl) as [Ht Hc].
  split; assumption.
Qed.

Lemma log_history_snoc (l : list value) (v : value) :
  log_history (l ++ [v]) = log_history l ++ [Logged (l ++ [v])].
Proof.
  unfold log_history.
  rewrite length_app, Nat.add_1_r, seq_S, map_app. cbn [map Nat.add].
  f_equal.
  - apply map_ext_in. intros k Hk. apply in_seq in Hk.
    rewrite firstn_app.
    replace (S k - List.length l) with 0 by lia.
    rewrite firstn_O, app_nil_r. reflexivity.
  - rewrite firstn_all2 by (rewrite length_app; cbn; lia). reflexivity.
Qed.

Lemma run_console (acts : list Action) :
  forall (s : State) (cur : string),
    todoInput s = Some cur ->
    console s = log_history (todos s) ->
    console (run acts s) = log_history (todos (run acts s)).
Proof.
  induction acts as [ | a acts IH]; intros s cur H Hlog; [exact Hlog | ].
  change (run (a :: acts) s) with (run acts (step s a)).
  destruct a as [t | ]; cbn [step].
  - rewrite H. apply (IH _ t); [reflexivity | exact Hlog].
  - destruct (dispatch_with_field s cur H) as (Ht & Hi & Hcon & _).
    apply (IH _ cur Hi).
    rewrite Hcon, Ht, Hlog. symmetry. apply log_history_snoc.
Qed.

(** The console after a run on a page with the title field: one entry
    per record of the array, and entry number [k] shows the array as it
    was right after submission number [k], that is the first [k + 1]
    records; so the last entry shows the whole array. *)
Theorem console_of_run (t0 : string) (rnd : nat -> unit_number) (acts : list Action) :
  let s := run acts (initial (Some t0) rnd) in
  console s = log_history (todos s) /\
  List.length (console s) = submissions acts.
Proof.
  intros s.
  assert (H : console s = log_history (todos s))
    by (apply (run_console acts _ t0); reflexivity).
  split; [exact H | ].
  rewrite H. unfold log_history. rewrite length_map, length_seq.
  subst s. rewrite run_length by (cbn; discriminate). reflexivity.
Qed.

(** The handler does not clear the title field: after a submission the
    field still holds the same text, and a second submission without
    typing appends a second record with the same title. *)
Theorem field_is_not_cleared (s : State) (t : string) :
  todoInput s = Some t ->
  todoInput (dispatch_submit s) = Some t /\
  exists i1 i2 : string,
    todos (run [Submit; Submit] s)
    = todos s ++ [VTodo {| title := t; isCompleted := false; id := i1 |};
                  VTodo {| title := t; isCompleted := false; id := i2 |}].
Proof.
  intros H. split; [apply (dispatch_with_field s t H) | ].
  destruct (run_with_field [Submit; Submit] s t H) as [Ht _].
  rewrite Ht. cbn [submitted_texts records]. unfold new_todo.
  eexists _, _. reflexivity.
Qed.

Lemma field_is_not_cleared_witness :
  todoInput (dispatch_submit sample_page) = Some "buy milk" /\
  exists i1 i2 : string,
    todos (run [Submit; Submit] sample_page)
    = [VTodo {| title := "buy milk"; isCompleted := false; id := i1 |};
       VTodo {| title := "buy milk"; isCompleted := false; id := i2 |}].
Proof. apply (field_is_not_cleared sample_page "buy milk"). reflexivity. Defined.

(** *** The first character of an id *)

Lemma digits_start (z : Z) : starts_with_digit (digits z) = true.
Proof.
  unfold digits. destruct (N.to_uint (Z.to_N z)); reflexivity.
Qed.

Lemma append_start (a b : string) :
  starts_with_digit a = true -> starts_with_digit (a ++ b) = true.
Proof. destruct a; [discriminate | trivial]. Qed.

Lemma substring_start (n : nat) (a : string) :
  starts_with_digit a = true -> starts_with_digit (substring 0 (S n) a) = true.
Proof. destruct a; [discriminate | trivial]. Qed.

Lemma layout_start (n k s : Z) : starts_with_digit (layout n k s) = true.
Proof.
  unfold layout.
  destruct ((-5 <=? n)%Z && (n <=? 21)%Z).
  - destruct (k <=? n)%Z; [apply append_start, digits_start | ].
    destruct (0 <? n)%Z eqn:Hn; [ | reflexivity].
    apply Z.ltb_lt in Hn.
    destruct (Z.to_nat n) as [ | n'] eqn:Hnat; [lia | ].
    apply append_start, substring_start, digits_start.
  - destruct (k =? 1)%Z; [apply append_start, digits_start | ].
    apply append_start, substring_start, digits_start.
Qed.

Lemma toString_start (x : number) :
  in_0_1000 x = true -> starts_with_digit (toString x) = true.
Proof.
  unfold in_0_1000, le, lt. rewrite of_Z_0, of_Z_1000.
  destruct x as [s | [ | ] | | [ | ] m e]; cbn [toString SFleb SFltb SFcompare andb];
    try discriminate.
  - reflexivity.
  - intros _. unfold toString_pos. destruct (nks m e) as [[n k] s]. apply layout_start.
Qed.

Lemma fresh_entry_start (v : value) :
  fresh_entry v -> exists i, id_of v = Some i /\ starts_with_digit i = true.
Proof.
  intros (t & x & -> & _ & Hx & Hid). exists (id t). split; [reflexivity | ].
  rewrite Hid. apply toString_start, Hx.
Qed.

(** Every id in the array begins with a decimal digit: it is never
    [NaN], [Infinity] or a negative number, whatever was typed and
    whatever [Math.random] returned. *)
Theorem ids_start_with_a_digit
  (field : option string) (rnd : nat -> unit_number) (acts : list Action) :
  Forall (fun v => exists i, id_of v = Some i /\ starts_with_digit i = true)
         (todos (run acts (initial field rnd))).
Proof.
  assert (Hrun : forall s, Forall fresh_entry (todos s) ->
                           Forall fresh_entry (todos (run acts s))).
  { induction acts as [ | a acts IH]; intros s H; [exact H | ].
    change (run (a :: acts) s) with (run acts (step s a)).
    apply IH, step_fresh, H. }
  eapply Forall_impl; [apply fresh_entry_start | ].
  apply Hrun. constructor.
Qed.

End TodoRunsFacts.

(** ** More facts about the input component *)

Module InputEventsFacts.
Import InputField InputEvents.
Local Open Scope nat_scope.
Local Open Scope list_scope.

(** The handlers of the three rendered elements. *)
Lemma handler_of_form (App : Type) (name : string) (kids : list (Element App)) :
  handler_of name (Elem "form" [("className", PStr "input")] kids) = None.
Proof.
  cbn [handler_of lookup]. destruct (String.eqb "className" name); reflexivity.
Qed.

Lemma handler_of_input (App : Type) (name : string) (ha : Handler App) :
  handler_of name
    (Elem "input"
       [("type", PStr "input"); ("placeholder", PStr "Enter a Task");
        ("className", PStr "input__box"); ("onSubmit", PHandler ha)] [])
  = if String.eqb name "onSubmit" then Some ha else None.
Proof.
  cbn [handler_of lookup]. rewrite (String.eqb_sym name "onSubmit").
  destruct (String.eqb "type" name) eqn:E1;
    [apply String.eqb_eq in E1; subst; reflexivity | ].
  destruct (String.eqb "placeholder" name) eqn:E2;
    [apply String.eqb_eq in E2; subst; reflexivity | ].
  destruct (String.eqb "className" name) eqn:E3;
    [apply String.eqb_eq in E3; subst; reflexivity | ].
  destruct (String.eqb "onSubmit" name); reflexivity.
Qed.

Lemma handler_of_button (App : Type) (name : string) (kids : list (Element App)) :
  handler_of name
    (Elem "button" [("className", PStr "input_submit"); ("type", PStr "submit")] kids)
  = None.
Proof.
  cbn [handler_of lookup].
  destruct (String.eqb "className" name); [reflexivity | ].
  destruct (String.eqb "type" name); reflexivity.
Qed.

Ltac walk_branch :=
  cbn [branch children_of nth_error List.rev List.app fold_left];
  rewrite ?handler_of_form, ?handler_of_input, ?handler_of_button,
    ?andb_false_r, ?andb_true_r;
  cbn [handler_of];
  try reflexivity.

(** The one way to run a callback of the rendered component is an
    [onSubmit] event fired at the input box itself, which runs
    [handleAdd] once with that event. Every other event, whatever its
    name and target (a click on the button, a change in the box, a submit
    at the form), leaves the parent as it is; [setTodo] is never run. *)
Theorem only_onSubmit_at_input_runs_handleAdd
  (App Hooks : Type) (p : Props App) (h : Hooks)
  (name : string) (ev : FormEvent) (app : App) :
  fire name (fst (InputFeild p h)) ev app
  = if String.eqb name "onSubmit" && on_input_box ev
    then handleAdd p ev app
    else app.
Proof.
  unfold fire, on_input_box.
  destruct ev as [ty target]. cbn [ev_target].
  destruct p as [t st ha]. cbn [fst InputFeild handleAdd].
  destruct target as [ | [ | [ | i]] rest]; walk_branch.
  - destruct rest as [ | j rest]; walk_branch.
    + destruct (String.eqb name "onSubmit"); reflexivity.
    + destruct j; walk_branch.
  - destruct rest as [ | [ | j] rest]; walk_branch.
    + destruct rest as [ | j rest]; walk_branch. destruct j; walk_branch.
    + destruct j; walk_branch.
  - destruct i; walk_branch.
Qed.

End InputEventsFacts.

(** ** More facts about numbers *)

Module JSNumberMoreFacts.
Import JSNumber JSNumberFacts.

(** The product of a positive number below one with a positive constant
    [M * 2^E] whose mantissa is not a power of two: as the multiplication
    rounds it, it stays below the constant. *)
Lemma round_product_below (M m : positive) (E e : Z) :
  2 ^ 52 < Z.pos M < 2 ^ 53 -> -1074 <= E <= 971 ->
  Z.pos m < 2 ^ 53 -> -1074 <= e <= -53 ->
  le (S754_zero false)
     (binary_round_aux prec emax false (Z.pos (m * M)) (e + E) loc_Exact) = true /\
  lt (binary_round_aux prec emax false (Z.pos (m * M)) (e + E) loc_Exact)
     (S754_finite false M E) = true.
Proof.
  intros HM HE Hm He.
  set (mx := Z.pos (m * M)).
  assert (Hmx : mx = Z.pos m * Z.pos M) by reflexivity.
  set (K := 2 ^ 53) in *.
  assert (HK : 2 ^ 52 * 2 = K) by reflexivity.
  assert (HK0 : 0 < 2 ^ 52) by reflexivity.
  set (Q := 2 ^ (- e - 53)).
  assert (HQ : 1 <= Q) by (assert (0 < Q) by (apply Z.pow_pos_nonneg; lia); lia).
  assert (HeQ : 2 ^ (- e) = K * Q).
  { unfold Q, K. rewrite <- Z.pow_add_r by lia. f_equal. lia. }
  destruct (shr_fexp_exact mx (e + E) ltac:(lia)) as (mrs1 & n & Heq1 & Hn & Hsh1).
  destruct (round_nearest_even_shifted mx n mrs1 ltac:(lia) Hsh1) as (Hr0 & Hr).
  unfold binary_round_aux. rewrite Heq1.
  set (r := round_nearest_even (shr_m mrs1) (loc_of_shr_record mrs1)) in *.
  assert (Hd : Zdigits2 mx <= 53 - e).
  { apply Zdigits2_le; [lia | ]. split; [lia | ].
    replace (53 - e) with (53 + - e) by lia.
    rewrite Z.pow_add_r, HeQ by lia. fold K. nia. }
  unfold fexp, JSNumber.emin, SpecFloat.emin, prec, emax in Hn.
  set (j := E - (e + E + n)).
  assert (Hj : 0 <= j) by lia.
  assert (He1 : -1074 <= e + E + n) by lia.
  assert (Hnj : 2 ^ j * 2 ^ n = K * Q).
  { rewrite <- Z.pow_add_r, <- HeQ by lia. f_equal. lia. }
  assert (Hpn : 0 < 2 ^ n) by (apply Z.pow_pos_nonneg; lia).
  assert (Hpj : 0 < 2 ^ j) by (apply Z.pow_pos_nonneg; lia).
  assert (Hn_le : 2 ^ n <= K * Q) by nia.
  assert (Hrlt : r < Z.pos M * 2 ^ j).
  { apply (Z.mul_lt_mono_pos_r (2 ^ n)); [assumption | ].
    replace (Z.pos M * 2 ^ j * 2 ^ n) with (Z.pos M * (K * Q)) by (rewrite <- Hnj; ring).
    rewrite Hmx in Hr.
    assert (H1 : Z.pos m * Z.pos M <= (K - 1) * Z.pos M) by nia.
    assert (H2 : 0 <= (Q - 1) * (K * (2 * Z.pos M - 1))) by nia.
    nia. }
  destruct (shr_fexp_exact r (e + E + n) Hr0) as (mrs2 & n2 & Heq2 & Hn2 & Hsh2).
  rewrite Heq2.
  assert (Hd2 : Zdigits2 r <= 53 + j).
  { apply Zdigits2_le; [lia | ]. split; [assumption | ].
    rewrite Z.pow_add_r by lia. fold K. nia. }
  unfold fexp, JSNumber.emin, SpecFloat.emin, prec, emax in Hn2.
  assert (Hn2j : 0 <= n2 <= j) by lia.
  destruct Hsh2 as (_ & Hq2 & Hpos2 & _).
  destruct (shr_m mrs2) as [ | p | p] eqn:Hm2; [split; reflexivity | | lia].
  unfold prec, emax.
  replace (e + E + n + n2 <=? 1024 - 53) with true by (symmetry; apply Z.leb_le; lia).
  split; [reflexivity | ].
  unfold lt. cbn [SFltb SFcompare].
  destruct (Z.compare_spec (e + E + n + n2) E) as [Heq | Hlt | Hgt];
    [ | reflexivity | lia].
  assert (Hp : Z.pos p < Z.pos M).
  { rewrite Hq2. apply Z.div_lt_upper_bound; [apply Z.pow_pos_nonneg; lia | ].
    replace n2 with j by lia. lia. }
  rewrite (compare_cont_lt p M Hp). reflexivity.
Qed.

End JSNumberMoreFacts.

(** ** Facts about the examples of the guide *)

Module ReadmeFacts.
Import JSNumber JSNumberFacts JSNumberMoreFacts Readme.
Local Open Scope list_scope.

(** *** [add] *)

(** [add] does not depend on the order of its arguments, [NaN] and the
    infinities included, and adding negative zero gives back the other
    argument, sign of zero included. *)
Theorem add_commutes (a b : number) :
  add a b = add b a /\ add a (S754_zero true) = a.
Proof.
  unfold add. split.
  - destruct a as [sa | sa | | sa ma ea], b as [sb | sb | | sb mb eb];
      cbn [SFadd];
      lazymatch goal with
      | |- binary_normalize _ _ _ _ _ = _ =>
          rewrite (Z.min_comm eb ea); f_equal; apply Z.add_comm
      | |- _ => try reflexivity; destruct sa, sb; reflexivity
      end.
  - destruct a as [[ | ] | sa | | sa ma ea]; reflexivity.
Qed.

(** *** [class Player] and [class SpecialPlayer] *)

Lemma of_Z_100 : of_Z 100 = S754_finite false 7036874417766400 (-46).
Proof. vm_compute. reflexivity. Qed.

(** [Math.random() * 100] is at least 0 and below 100. *)
Lemma times_100_in_range (r : number) :
  is_unit r = true -> in_0_100 (times r (of_Z 100)) = true.
Proof.
  intros H. unfold in_0_100, times. rewrite of_Z_0, of_Z_100.
  destruct r as [s | s | | s m e];
    unfold is_unit in H; cbn [well_formed valid_binary positive_sign andb] in H;
    try discriminate.
  - destruct s; [discriminate | reflexivity].
  - destruct s.
    + rewrite andb_false_r in H. discriminate.
    + apply unit_finite in H as [Hm He].
      cbn [SFmul xorb].
      assert (HM : 2 ^ 52 < 7036874417766400 < 2 ^ 53) by (split; reflexivity).
      destruct (round_product_below 7036874417766400 m (-46) e HM ltac:(lia) Hm He)
        as [Hle Hlt].
      rewrite Hle, Hlt. reflexivity.
Qed.

(** A new player has the height, weight and power given to the
    constructor and an id that is the string of a number at least 0 and
    below 100, so never the empty string; building it takes exactly one
    random number. *)
Theorem new_Player_fields (h w p : number) (g : Generator) :
  getMyHeight (fst (new_Player h w p g)) = h /\
  weight (fst (new_Player h w p g)) = w /\
  power (fst (new_Player h w p g)) = p /\
  id (fst (new_Player h w p g)) <> EmptyString /\
  (exists x : number,
      in_0_100 x = true /\ id (fst (new_Player h w p g)) = toString x) /\
  calls (snd (new_Player h w p g)) = S (calls g).
Proof.
  unfold new_Player, Math_random.
  cbn [fst snd getMyHeight height weight power id calls].
  repeat split.
  - apply toString_nonempty.
  - eexists. split; [ | reflexivity].
    apply times_100_in_range, (proj2_sig (source g (calls g))).
Qed.

(** After any sequence of assignments to [changeHeight], the getter
    returns the last value assigned (the height at the start when there
    was none), and id, weight and power are what they were. *)
Theorem changeHeight_sets_only_height (this : Player) (vals : list number) :
  getMyHeight (fold_left changeHeight vals this) = last vals (height this) /\
  id (fold_left changeHeight vals this) = id this /\
  weight (fold_left changeHeight vals this) = weight this /\
  power (fold_left changeHeight vals this) = power this.
Proof.
  induction vals as [ | v vals IH] using rev_ind.
  - repeat split.
  - rewrite fold_left_app, last_last. cbn. destruct IH as (_ & Hi & Hw & Hp).
    repeat split; assumption.
Qed.

(** A special player answers [getPower] with the power given to its
    constructor, also after any changes of its height; the constructor
    passes height, weight and power on to [Player] and so takes one
    random number for the id. *)
Theorem getPower_is_constructor_power
  (h w p : number) (sp : bool) (g : Generator) (vals : list number) :
  let this := fst (new_SpecialPlayer h w p sp g) in
  getPower this = p /\
  getPower (fold_left changeHeight_special vals this) = p /\
  special (fold_left changeHeight_special vals this) = sp /\
  as_Player this = fst (new_Player h w p g) /\
  calls (snd (new_SpecialPlayer h w p sp g)) = S (calls g).
Proof.
  intros this.
  assert (Hfold : forall q : SpecialPlayer,
             getPower (fold_left changeHeight_special vals q) = getPower q /\
             special (fold_left changeHeight_special vals q) = special q).
  { induction vals as [ | v vals IH]; intros q; [split; reflexivity | ].
    cbn [fold_left]. destruct (IH (changeHeight_special q v)) as [-> ->].
    split; reflexivity. }
  destruct (Hfold this) as [-> ->]. repeat split.
Qed.

(** *** [filterByProperty] *)

Lemma SFeqb_nan_r (x : number) : SFeqb x S754_nan = false.
Proof. destruct x as [s | s | | s m e]; reflexivity. Qed.

Lemma strict_equals_nan_r (v : jsval) : strict_equals v (VNum S754_nan) = false.
Proof. destruct v; cbn [strict_equals]; try reflexivity. apply SFeqb_nan_r. Qed.

Lemma strict_equals_zero (v : jsval) (s : bool) :
  strict_equals v (VNum (S754_zero s)) = strict_equals v (VNum (S754_zero false)).
Proof.
  destruct v as [ | | b | x | t | r]; cbn [strict_equals]; try reflexivity.
  all: destruct x as [sx | sx | | sx m e]; reflexivity.
Qed.


(** The result holds exactly the items of the array whose property
    [key] is strictly equal to [value], in the order of the array: the
    filter of a concatenation is the concatenation of the filters, and the
    result is never longer than the array. *)
Theorem filterByProperty_selects (arr more : list object) (key : string) (value : jsval) :
  (forall item : object,
      In item (filterByProperty arr key value) <->
      In item arr /\ strict_equals (get item key) value = true) /\
  filterByProperty (arr ++ more) key value
  = filterByProperty arr key value ++ filterByProperty more key value /\
  (List.length (filterByProperty arr key value) <= List.length arr)%nat.
Proof.
  unfold filterByProperty. split; [ | split].
  - intros item. apply filter_In.
  - apply filter_app.
  - apply filter_length_le.
Qed.

(** Filtering twice with the same key and value is filtering once, and
    two filters can be applied in either order. *)
Theorem filterByProperty_composes
  (arr : list object) (k1 k2 : string) (v1 v2 : jsval) :
  filterByProperty (filterByProperty arr k1 v1) k1 v1 = filterByProperty arr k1 v1 /\
  filterByProperty (filterByProperty arr k1 v1) k2 v2
  = filterByProperty (filterByProperty arr k2 v2) k1 v1.
Proof.
  unfold filterByProperty. split.
  - induction arr as [ | item arr IH]; [reflexivity | ].
    cbn [filter]. destruct (strict_equals (get item k1) v1) eqn:E; [ | exact IH].
    cbn [filter]. rewrite E, IH. reflexivity.
  - induction arr as [ | item arr IH]; [reflexivity | ].
    cbn [filter].
    destruct (strict_equals (get item k1) v1) eqn:E1,
             (strict_equals (get item k2) v2) eqn:E2;
      cbn [filter]; rewrite ?E1, ?E2, IH; reflexivity.
Qed.

(** [NaN] is never found: filtering for [NaN] gives the empty array,
    whatever the array holds, and an item whose property is [NaN] is in
    no result. *)
Theorem filterByProperty_NaN (arr : list object) (key : string) :
  filterByProperty arr key (VNum S754_nan) = [] /\
  (forall (value : jsval) (item : object),
      get item key = VNum S754_nan -> ~ In item (filterByProperty arr key value)).
Proof.
  split.
  - unfold filterByProperty. induction arr as [ | item arr IH]; [reflexivity | ].
    cbn [filter]. rewrite strict_equals_nan_r. exact IH.
  - intros value item Hget Hin.
    apply filter_In in Hin as [_ Heq]. rewrite Hget in Heq.
    destruct value; discriminate.
Qed.

Lemma filterByProperty_NaN_witness :
  ~ In [("age", VNum S754_nan)]
       (filterByProperty [[("age", VNum S754_nan)]] "age" (VNum S754_nan)).
Proof.
  apply (proj2 (filterByProperty_NaN [[("age", VNum S754_nan)]] "age")).
  reflexivity.
Defined.

(** The two zeros are not told apart: filtering for [-0] and for [+0]
    gives the same result. *)
Theorem filterByProperty_zero_sign (arr : list object) (key : string) :
  filterByProperty arr key (VNum (S754_zero true))
  = filterByProperty arr key (VNum (S754_zero false)).
Proof.
  unfold filterByProperty. apply filter_ext. intros item. apply strict_equals_zero.
Qed.



(** The example of the guide: of Alice (30) and Bob (25), the filter on
    [age] being [30] keeps Alice. *)
Example filtered :
  filterByProperty users "age" (VNum (of_Z 30))
  = [[("name", VStr "Alice"); ("age", VNum (of_Z 30))]].
Proof. vm_compute. reflexivity. Qed.

End ReadmeFacts.
